(** * Active-section tracking of the portfolio page (src/App.jsx)

    The [App] component owns two React state hooks, [isMenuOpen] and
    [activeSection], and two handlers that touch the DOM:
    [scrollToSection] (navigation clicks) and [handleScroll] (the scroll
    listener installed by [useEffect]).  This development embeds both
    handlers over an explicit model of the part of the browser they read:
    the elements carrying an [id], with their [offsetTop] and
    [offsetHeight], and [window.scrollY].

    Pixel quantities are integers ([Z]).  Reading a property of [null]
    throws in JavaScript; the embedding keeps that failure as an explicit
    outcome so that the guards [if (element)] of the source do real work. *)

From Stdlib Require Import ZArith List String Bool Lia.
Import ListNotations.

Local Open Scope string_scope.
Local Open Scope list_scope.
Local Open Scope Z_scope.

(** ** The browser side: elements and the document *)

Record Element := mkElement {
  elem_id : string;
  offsetTop : Z;
  offsetHeight : Z
}.

(** The elements of the page that carry an [id], in tree order. *)
Definition Document := list Element.

(** [document.getElementById]: the first element with that id, or [null]. *)
Definition getElementById (doc : Document) (i : string) : option Element :=
  find (fun e => String.eqb (elem_id e) i) doc.

(** Calls made on the browser by the handlers. *)
Inductive DomCall :=
| ScrollIntoView (target : Element) (behavior : string).

(** ** The component's state: the two [useState] hooks *)

Record AppState := mkState {
  isMenuOpen : bool;
  activeSection : string
}.

(** [useState(false)] and [useState('home')]. *)
Definition initialState : AppState :=
  {| isMenuOpen := false; activeSection := "home" |}.

(** ** Handlers as computations: state, a log of DOM calls, and failure *)

Inductive outcome (A : Type) :=
| Ok (a : A)
| TypeError.
Arguments Ok {A} a.
Arguments TypeError {A}.

Definition M (A : Type) : Type :=
  AppState -> outcome (A * AppState * list DomCall).

Definition ret {A} (a : A) : M A := fun st => Ok (a, st, []).

Definition bind {A B} (m : M A) (k : A -> M B) : M B :=
  fun st =>
    match m st with
    | Ok (a, st1, calls1) =>
        match k a st1 with
        | Ok (b, st2, calls2) => Ok (b, st2, calls1 ++ calls2)
        | TypeError => TypeError
        end
    | TypeError => TypeError
    end.

Declare Scope handler_scope.
Delimit Scope handler_scope with handler.
Notation "x <- m ;; k" := (bind m (fun x => k))
  (at level 100, m at next level, right associativity) : handler_scope.
Notation "m ;;; k" := (bind m (fun _ => k))
  (at level 100, right associativity) : handler_scope.
Local Open Scope handler_scope.

Definition throw {A} : M A := fun _ => TypeError.

Definition setIsMenuOpen (b : bool) : M unit :=
  fun st => Ok (tt, {| isMenuOpen := b; activeSection := activeSection st |}, []).

Definition setActiveSection (s : string) : M unit :=
  fun st => Ok (tt, {| isMenuOpen := isMenuOpen st; activeSection := s |}, []).

Definition readIsMenuOpen : M bool := fun st => Ok (isMenuOpen st, st, []).

(** Truthiness of the result of [getElementById]: an element is truthy,
    [null] is falsy. *)
Definition truthy (element : option Element) : bool :=
  match element with Some _ => true | None => false end.

(** [element.offsetTop], [element.offsetHeight] and
    [element.scrollIntoView(...)]: each throws on [null]. *)
Definition get_offsetTop (element : option Element) : M Z :=
  match element with Some e => ret (offsetTop e) | None => throw end.

Definition get_offsetHeight (element : option Element) : M Z :=
  match element with Some e => ret (offsetHeight e) | None => throw end.

Definition scrollIntoView (element : option Element) (behavior : string) : M unit :=
  match element with
  | Some e => fun st => Ok (tt, st, [ScrollIntoView e behavior])
  | None => throw
  end.

(** ** The component *)

Record NavItem := mkNavItem { id : string; label : string }.

Definition navItems : list NavItem :=
  [ {| id := "home"; label := "Home" |};
    {| id := "about"; label := "About" |};
    {| id := "skills"; label := "Skills" |};
    {| id := "projects"; label := "Projects" |};
    {| id := "contact"; label := "Contact" |} ].

(** [scrollToSection]: scroll the element into view when it exists, then
    close the mobile menu in every case. *)
Definition scrollToSection (doc : Document) (sectionId : string) : M unit :=
  let element := getElementById doc sectionId in
  (if truthy element
   then scrollIntoView element "smooth"
   else ret tt) ;;;
  setIsMenuOpen false.

(** The body of [for (const section of sections)]; returning without the
    recursive call is the [break]. *)
Fixpoint forSections (doc : Document) (scrollPosition : Z)
    (sections : list string) : M unit :=
  match sections with
  | [] => ret tt
  | section :: rest =>
      let element := getElementById doc section in
      if truthy element then
        offsetTop <- get_offsetTop element ;;
        offsetHeight <- get_offsetHeight element ;;
        if (offsetTop <=? scrollPosition)
           && (scrollPosition <? offsetTop + offsetHeight)
        then setActiveSection section
        else forSections doc scrollPosition rest
      else forSections doc scrollPosition rest
  end.

(** The tracker over an arbitrary ordered list of section identifiers. *)
Definition trackSections (sections : list string) (doc : Document)
    (scrollY : Z) : M unit :=
  let scrollPosition := scrollY + 100 in
  forSections doc scrollPosition sections.

(** [handleScroll]: the scroll listener, over the identifiers of [navItems]. *)
Definition handleScroll (doc : Document) (scrollY : Z) : M unit :=
  let sections := map id navItems in
  trackSections sections doc scrollY.

(** The mobile menu button: [setIsMenuOpen(!isMenuOpen)]. *)
Definition toggleMenu : M unit :=
  open <- readIsMenuOpen ;;
  setIsMenuOpen (negb open).

(** ** A page session: what the user and the browser can make happen *)

Inductive Event :=
| Scroll (doc : Document) (scrollY : Z)
| MenuButton
| NavClick (doc : Document) (sectionId : string).

Definition handle (ev : Event) : M unit :=
  match ev with
  | Scroll doc scrollY => handleScroll doc scrollY
  | MenuButton => toggleMenu
  | NavClick doc sectionId => scrollToSection doc sectionId
  end.

Fixpoint session (evs : list Event) : M unit :=
  match evs with
  | [] => ret tt
  | ev :: rest => handle ev ;;; session rest
  end.

(** The state a computation ends in, when it does not throw. *)
Definition finalState {A} (r : outcome (A * AppState * list DomCall))
  : option AppState :=
  match r with
  | Ok (_, st, _) => Some st
  | TypeError => None
  end.

(** ** Reading the geometry: which sections contain a position *)

(** The element's range [[offsetTop, offsetTop + offsetHeight)] contains
    [pos]. *)
Definition inRange (e : Element) (pos : Z) : Prop :=
  offsetTop e <= pos < offsetTop e + offsetHeight e.

Definition inRangeb (e : Element) (pos : Z) : bool :=
  (offsetTop e <=? pos) && (pos <? offsetTop e + offsetHeight e).

(** Section [s] has an element in the document and its range contains
    [pos]. *)
Definition matches (doc : Document) (pos : Z) (s : string) : Prop :=
  exists e, getElementById doc s = Some e /\ inRange e pos.

Definition matchesb (doc : Document) (pos : Z) (s : string) : bool :=
  match getElementById doc s with
  | Some e => inRangeb e pos
  | None => false
  end.

(** The first section, in list order, that contains [pos]. *)
Definition firstMatch (doc : Document) (pos : Z) (sections : list string)
  : option string :=
  find (matchesb doc pos) sections.

Definition withActive (s : string) (st : AppState) : AppState :=
  {| isMenuOpen := isMenuOpen st; activeSection := s |}.

(** What a pass of the tracker does to the state once the first match is
    known. *)
Definition settle (found : option string) (st : AppState) : AppState :=
  match found with
  | Some s => withActive s st
  | None => st
  end.

(** The sections of the list whose element exists, with their geometry. *)
Definition geometry (doc : Document) (sections : list string) : list Element :=
  flat_map (fun s => match getElementById doc s with
                     | Some e => [e]
                     | None => []
                     end) sections.

(** A stacked layout: every element starts at or below [bottom], has a
    non-negative height, and the next ones start at or below its end. *)
Fixpoint stackedFrom (bottom : Z) (els : list Element) : bool :=
  match els with
  | [] => true
  | e :: rest =>
      (bottom <=? offsetTop e) && (0 <=? offsetHeight e)
      && stackedFrom (offsetTop e + offsetHeight e) rest
  end.

Definition stacked (doc : Document) (sections : list string) : bool :=
  match geometry doc sections with
  | [] => true
  | e :: rest => stackedFrom (offsetTop e + offsetHeight e) rest
  end.

(** ** Sample documents *)

(** home: 0-799, about: 800-1599, skills: 1600-2399. *)
Definition scenarioDoc : Document :=
  [ mkElement "home" 0 800; mkElement "about" 800 800;
    mkElement "skills" 1600 800 ].

(** Two sections whose ranges share the positions 700-799. *)
Definition overlapDoc : Document :=
  [ mkElement "home" 0 800; mkElement "about" 700 800 ].

(** A first section shorter than the 100 px bias. *)
Definition shortHomeDoc : Document :=
  [ mkElement "home" 0 50; mkElement "about" 50 800 ].

(** A section hidden from layout: its element reports a height of 0.  It
    sits at 800, where "skills" starts as well. *)
Definition hiddenAboutDoc : Document :=
  [ mkElement "home" 0 800; mkElement "about" 800 0;
    mkElement "skills" 800 800 ].

(** Disjoint ranges that are not in list order: "home" below "about". *)
Definition swappedDoc : Document :=
  [ mkElement "about" 0 800; mkElement "home" 800 800 ].

(** ** Disjoint ranges *)

(** Two elements share no position: one ends where or before the other
    starts, or one of the ranges is empty. *)
Definition rangesApart (a b : Element) : bool :=
  (offsetTop a + offsetHeight a <=? offsetTop b)
  || (offsetTop b + offsetHeight b <=? offsetTop a)
  || (offsetHeight a <=? 0)
  || (offsetHeight b <=? 0).

(** Section [s] shares no position with any other section of [others]. *)
Definition apartFrom (doc : Document) (s : string) (others : list string)
  : bool :=
  forallb (fun s' =>
             String.eqb s s'
             || match getElementById doc s, getElementById doc s' with
                | Some a, Some b => rangesApart a b
                | _, _ => true
                end)
          others.

(** No two different sections of the list have ranges that share a
    position, in whatever order the ranges lie. *)
Fixpoint disjointRanges (doc : Document) (sections : list string) : bool :=
  match sections with
  | [] => true
  | s :: rest => apartFrom doc s rest && disjointRanges doc rest
  end.

(** Contiguous layouts: the first element starts at [bottom], heights are
    non-negative and every element starts exactly where the one before it
    ends. *)
Fixpoint contiguousFrom (bottom : Z) (els : list Element) : bool :=
  match els with
  | [] => true
  | e :: rest =>
      (offsetTop e =? bottom) && (0 <=? offsetHeight e)
      && contiguousFrom (offsetTop e + offsetHeight e) rest
  end.

(** Where the last element of a layout starting at [bottom] ends. *)
Fixpoint lastEnd (bottom : Z) (els : list Element) : Z :=
  match els with
  | [] => bottom
  | e :: rest => lastEnd (offsetTop e + offsetHeight e) rest
  end.

(** ** What a session amounts to, event by event *)

Definition menuStep (open : bool) (ev : Event) : bool :=
  match ev with
  | Scroll _ _ => open
  | MenuButton => negb open
  | NavClick _ _ => false
  end.

Definition activeStep (active : string) (ev : Event) : string :=
  match ev with
  | Scroll doc scrollY =>
      match firstMatch doc (scrollY + 100) (map id navItems) with
      | Some s => s
      | None => active
      end
  | MenuButton | NavClick _ _ => active
  end.

Definition callsOf (ev : Event) : list DomCall :=
  match ev with
  | NavClick doc sectionId =>
      match getElementById doc sectionId with
      | Some e => [ScrollIntoView e "smooth"]
      | None => []
      end
  | Scroll _ _ | MenuButton => []
  end.

Definition isScroll (ev : Event) : bool :=
  match ev with
  | Scroll _ _ => true
  | MenuButton | NavClick _ _ => false
  end.

(** ** Handlers as closures of a render

    The handlers attached to the page are closures created by a render.
    Only the menu button reads state, and it reads the [isMenuOpen] of the
    render that created it: [setIsMenuOpen(!isMenuOpen)]. *)

Definition handleRendered (rendered : AppState) (ev : Event) : M unit :=
  match ev with
  | Scroll doc scrollY => handleScroll doc scrollY
  | MenuButton => setIsMenuOpen (negb (isMenuOpen rendered))
  | NavClick doc sectionId => scrollToSection doc sectionId
  end.

(** Events handled by the closures of one render, with no render in
    between. *)
Fixpoint batch (rendered : AppState) (evs : list Event) : M unit :=
  match evs with
  | [] => ret tt
  | ev :: rest => handleRendered rendered ev ;;; batch rendered rest
  end.

(** A page session as a sequence of batches: the component renders with
    the current state before each batch. *)
Fixpoint batches (bs : list (list Event)) : M unit :=
  match bs with
  | [] => ret tt
  | evs :: rest => fun st => (batch st evs ;;; batches rest) st
  end.

(** What one event of a batch does to the menu flag, given the flag of the
    render the batch runs against. *)
Definition menuStepRendered (renderedOpen : bool) (open : bool) (ev : Event)
  : bool :=
  match ev with
  | Scroll _ _ => open
  | MenuButton => negb renderedOpen
  | NavClick _ _ => false
  end.

(** ** The navigation bar as rendered from the state *)

Inductive Icon := IconX | IconMenu.

(** A rendered navigation button: its React key, the identifier its
    [onClick] passes to [scrollToSection], its class and its text. *)
Record NavButton := mkNavButton {
  key : string;
  onClickSection : string;
  className : string;
  children : string
}.

(** Desktop navigation: one button per item, highlighted when
    [activeSection === item.id]. *)
Definition desktopNav (st : AppState) : list NavButton :=
  map (fun item =>
         {| key := id item;
            onClickSection := id item;
            className :=
              String.append
                "text-sm font-medium transition-colors hover:text-primary "
                (if String.eqb (activeSection st) (id item)
                 then "text-primary"
                 else "text-muted-foreground");
            children := label item |})
      navItems.

(** The menu button shows [X] while the menu is open, [Menu] otherwise. *)
Definition menuButtonIcon (st : AppState) : Icon :=
  if isMenuOpen st then IconX else IconMenu.

(** Mobile navigation: rendered only while [isMenuOpen]. *)
Definition mobileNav (st : AppState) : option (list NavButton) :=
  if isMenuOpen st then
    Some (map (fun item =>
                 {| key := id item;
                    onClickSection := id item;
                    className :=
                      "block w-full text-left px-3 py-2 text-sm font-medium text-muted-foreground hover:text-primary transition-colors";
                    children := label item |})
              navItems)
  else None.

(** The class a highlighted desktop button carries. *)
Definition isHighlighted (b : NavButton) : bool :=
  String.eqb (className b)
    "text-sm font-medium transition-colors hover:text-primary text-primary".

(** ** The scroll subscription of [useEffect]

    The listeners of [window], as pairs of an event type and the identity
    of a callback.  [addEventListener] does not add a pair that is already
    registered; [removeEventListener] removes the pair. *)

Record Listener := mkListener { eventType : string; callback : nat }.

Definition sameListener (type : string) (cb : nat) (l : Listener) : bool :=
  String.eqb (eventType l) type && Nat.eqb (callback l) cb.

Definition addEventListener (type : string) (cb : nat) (ls : list Listener)
  : list Listener :=
  if existsb (sameListener type cb) ls then ls
  else ls ++ [ {| eventType := type; callback := cb |} ].

Definition removeEventListener (type : string) (cb : nat) (ls : list Listener)
  : list Listener :=
  filter (fun l => negb (sameListener type cb l)) ls.

(** The effect body and the cleanup it returns; [handleScrollRef] is the
    identity of the [handleScroll] closure both of them name. *)
Definition effectMount (handleScrollRef : nat) (ls : list Listener)
  : list Listener :=
  addEventListener "scroll" handleScrollRef ls.

Definition effectCleanup (handleScrollRef : nat) (ls : list Listener)
  : list Listener :=
  removeEventListener "scroll" handleScrollRef ls.

(** ** The featured projects grid *)

Record Project := mkProject {
  project_id : Z;
  title : string;
  description : string;
  technologies : list string;
  image : string;
  github : string;
  live : string;
  featured : bool
}.

Definition projects : list Project :=
  [ {| project_id := 1;
       title := "E-Commerce Platform";
       description := "Full-stack e-commerce solution with React, Node.js, and PostgreSQL. Features include user authentication, payment processing, and admin dashboard.";
       technologies := ["React"; "Node.js"; "PostgreSQL"; "Stripe"; "Docker"];
       image := "/api/placeholder/600/400";
       github := "https://github.com/alexjohnson/ecommerce";
       live := "https://ecommerce-demo.com";
       featured := true |};
    {| project_id := 2;
       title := "Task Management App";
       description := "Collaborative task management application with real-time updates, drag-and-drop functionality, and team collaboration features.";
       technologies := ["Vue.js"; "Express"; "Socket.io"; "MongoDB"];
       image := "/api/placeholder/600/400";
       github := "https://github.com/alexjohnson/taskmanager";
       live := "https://taskmanager-demo.com";
       featured := true |};
    {| project_id := 3;
       title := "Weather Dashboard";
       description := "Beautiful weather dashboard with location-based forecasts, interactive maps, and detailed weather analytics.";
       technologies := ["React"; "D3.js"; "OpenWeather API"; "Mapbox"];
       image := "/api/placeholder/600/400";
       github := "https://github.com/alexjohnson/weather-dashboard";
       live := "https://weather-dashboard-demo.com";
       featured := false |} ].

(** A rendered project card.  [card_index] is the [index] argument of the
    [map] callback; the entry animation is delayed by [index * 0.2]
    seconds. *)
Record ProjectCard := mkProjectCard {
  card_key : Z;
  card_index : nat;
  card_title : string;
  card_description : string;
  card_github : string;
  card_live : string;
  card_badges : list string
}.

(** [Array.prototype.map] with the index argument, counting from [i]. *)
Fixpoint mapIndexFrom {A B} (f : A -> nat -> B) (i : nat) (l : list A)
  : list B :=
  match l with
  | [] => []
  | a :: rest => f a i :: mapIndexFrom f (S i) rest
  end.

(** [projects.filter(p => p.featured).map((project, index) => ...)]. *)
Definition renderProjects (ps : list Project) : list ProjectCard :=
  mapIndexFrom
    (fun project index =>
       {| card_key := project_id project;
          card_index := index;
          card_title := title project;
          card_description := description project;
          card_github := github project;
          card_live := live project;
          card_badges := map (fun tech => tech) (technologies project) |})
    0 (filter (fun p => featured p) ps).

(** ** Basic facts *)

Lemma inRangeb_spec e pos : inRangeb e pos = true <-> inRange e pos.
Proof.
  unfold inRangeb, inRange.
  rewrite andb_true_iff, Z.leb_le, Z.ltb_lt. tauto.
Qed.

Lemma matchesb_spec doc pos s : matchesb doc pos s = true <-> matches doc pos s.
Proof.
  unfold matchesb, matches. split.
  - destruct (getElementById doc s) as [e|]; [|discriminate].
    intros H. exists e. split; [reflexivity|]. now apply inRangeb_spec.
  - intros [e [-> H]]. now apply inRangeb_spec.
Qed.

Lemma matchesb_false doc pos s : matchesb doc pos s = false <-> ~ matches doc pos s.
Proof.
  rewrite <- matchesb_spec. destruct (matchesb doc pos s); split; congruence.
Qed.

Lemma getElementById_id doc s e : getElementById doc s = Some e -> elem_id e = s.
Proof.
  unfold getElementById. intros H.
  apply find_some in H. destruct H as [_ H]. now apply String.eqb_eq.
Qed.

(** The loop of the source computes [firstMatch]; it never throws and makes
    no DOM call. *)
Lemma forSections_firstMatch doc pos sections st :
  forSections doc pos sections st
  = Ok (tt, settle (firstMatch doc pos sections) st, []).
Proof.
  induction sections as [|s rest IH]; [reflexivity|].
  cbn [forSections firstMatch find].
  unfold matchesb at 1.
  destruct (getElementById doc s) as [e|] eqn:Hs; cbn [truthy].
  - unfold bind, get_offsetTop, get_offsetHeight, ret. fold (inRangeb e pos).
    destruct (inRangeb e pos); [reflexivity|]. rewrite IH. reflexivity.
  - exact IH.
Qed.

Lemma trackSections_settle sections doc scrollY st :
  trackSections sections doc scrollY st
  = Ok (tt, settle (firstMatch doc (scrollY + 100) sections) st, []).
Proof. unfold trackSections. apply forSections_firstMatch. Qed.

(** The listener is the tracker over the identifiers of [navItems]. *)
Lemma handleScroll_settle doc scrollY st :
  handleScroll doc scrollY st
  = Ok (tt, settle (firstMatch doc (scrollY + 100) (map id navItems)) st, []).
Proof. unfold handleScroll. apply trackSections_settle. Qed.

Lemma firstMatch_Some doc pos sections s :
  firstMatch doc pos sections = Some s ->
  exists before after,
    sections = before ++ s :: after
    /\ matches doc pos s
    /\ Forall (fun s' => ~ matches doc pos s') before.
Proof.
  unfold firstMatch.
  induction sections as [|x rest IH]; cbn [find]; [discriminate|].
  destruct (matchesb doc pos x) eqn:Hx.
  - intros [= <-]. exists [], rest. repeat split; auto.
    now apply matchesb_spec.
  - intros H. destruct (IH H) as (before & after & -> & Hm & Hb).
    exists (x :: before), after. repeat split; auto.
    constructor; [now apply matchesb_false | exact Hb].
Qed.

Lemma firstMatch_None doc pos sections :
  firstMatch doc pos sections = None ->
  Forall (fun s' => ~ matches doc pos s') sections.
Proof.
  unfold firstMatch. intros H. apply Forall_forall. intros s Hin.
  apply matchesb_false. exact (find_none _ _ H s Hin).
Qed.

Lemma firstMatch_split doc pos before s after :
  matches doc pos s ->
  Forall (fun s' => ~ matches doc pos s') before ->
  firstMatch doc pos (before ++ s :: after) = Some s.
Proof.
  intros Hm Hb. unfold firstMatch.
  induction Hb as [|x before Hx _ IH]; cbn [app find].
  - apply matchesb_spec in Hm. now rewrite Hm.
  - apply matchesb_false in Hx. now rewrite Hx.
Qed.

Lemma firstMatch_In doc pos sections s :
  firstMatch doc pos sections = Some s -> In s sections.
Proof. unfold firstMatch. intros H. now apply find_some in H. Qed.

Lemma firstMatch_present doc pos sections :
  firstMatch doc pos (filter (fun s => truthy (getElementById doc s)) sections)
  = firstMatch doc pos sections.
Proof.
  unfold firstMatch.
  induction sections as [|s rest IH]; [reflexivity|].
  cbn [filter find]. unfold matchesb at 2.
  destruct (getElementById doc s) as [e|] eqn:Hs; cbn [truthy].
  - cbn [find]. unfold matchesb at 1. rewrite Hs.
    destruct (inRangeb e pos); [reflexivity | exact IH].
  - exact IH.
Qed.

Lemma settle_idem found st : settle found (settle found st) = settle found st.
Proof. destruct found; reflexivity. Qed.

(** Reads of a missing element do fail in this model: the guards of the
    source are what keeps the handlers from throwing. *)
Lemma unguarded_read_throws st :
  get_offsetTop None st = TypeError
  /\ get_offsetHeight None st = TypeError
  /\ scrollIntoView None "smooth" st = TypeError.
Proof. repeat split. Qed.

(** *** Stacked layouts *)

Lemma stackedFrom_lower bottom els :
  stackedFrom bottom els = true ->
  forall e, In e els -> bottom <= offsetTop e.
Proof.
  revert bottom.
  induction els as [|x rest IH]; intros bottom H e Hin; [contradiction|].
  cbn [stackedFrom] in H.
  apply andb_true_iff in H. destruct H as [H Hrest].
  apply andb_true_iff in H. destruct H as [Hb Hh].
  apply Z.leb_le in Hb. apply Z.leb_le in Hh.
  destruct Hin as [<-|Hin]; [exact Hb|].
  specialize (IH _ Hrest e Hin). lia.
Qed.

Lemma stackedFrom_inner bottom els :
  stackedFrom bottom els = true ->
  match els with
  | [] => true
  | e :: rest => stackedFrom (offsetTop e + offsetHeight e) rest
  end = true.
Proof.
  destruct els as [|e rest]; [reflexivity|].
  cbn [stackedFrom]. intros H.
  apply andb_true_iff in H. apply H.
Qed.

Lemma geometry_In doc sections s e :
  In s sections -> getElementById doc s = Some e -> In e (geometry doc sections).
Proof.
  intros Hin Hs. unfold geometry. apply in_flat_map.
  exists s. split; [exact Hin|]. rewrite Hs. now left.
Qed.

Lemma stacked_disjoint doc sections pos s1 s2 :
  stacked doc sections = true ->
  In s1 sections -> In s2 sections ->
  matches doc pos s1 -> matches doc pos s2 ->
  s1 = s2.
Proof.
  unfold stacked.
  induction sections as [|s rest IH]; intros Hst H1 H2 M1 M2; [contradiction|].
  cbn [geometry flat_map] in Hst. fold (geometry doc rest) in Hst.
  destruct (getElementById doc s) as [e|] eqn:Hs; cbn [app] in Hst.
  - assert (Hlow : forall s' e', In s' rest -> getElementById doc s' = Some e' ->
                                 offsetTop e + offsetHeight e <= offsetTop e').
    { intros s' e' Hin He'.
      apply (stackedFrom_lower _ _ Hst). now apply geometry_In with s'. }
    destruct M1 as (e1 & He1 & R1), M2 as (e2 & He2 & R2).
    unfold inRange in R1, R2.
    destruct H1 as [<-|H1], H2 as [<-|H2].
    + reflexivity.
    + rewrite Hs in He1. injection He1 as <-.
      specialize (Hlow _ _ H2 He2). lia.
    + rewrite Hs in He2. injection He2 as <-.
      specialize (Hlow _ _ H1 He1). lia.
    + apply IH.
      * now apply stackedFrom_inner in Hst.
      * exact H1.
      * exact H2.
      * now exists e1.
      * now exists e2.
  - assert (Hno : forall s', matches doc pos s' -> In s' (s :: rest) -> In s' rest).
    { intros s' (e' & He' & _) [<-|Hin]; [congruence | exact Hin]. }
    apply IH; auto.
Qed.

(** *** One event preserves the set of section identifiers *)

Lemma handle_preserves ev st :
  In (activeSection st) (map id navItems) ->
  exists st' calls,
    handle ev st = Ok (tt, st', calls)
    /\ In (activeSection st') (map id navItems).
Proof.
  intros Hin. destruct ev as [doc scrollY| |doc sectionId]; cbn [handle].
  - unfold handleScroll. rewrite trackSections_settle.
    eexists _, _. split; [reflexivity|].
    destruct (firstMatch doc (scrollY + 100) (map id navItems)) as [s|] eqn:Hf;
      cbn [settle withActive activeSection]; [|exact Hin].
    now apply firstMatch_In in Hf.
  - eexists _, _. split; [reflexivity | exact Hin].
  - unfold scrollToSection.
    destruct (getElementById doc sectionId) as [e|];
      eexists _, _; (split; [reflexivity | exact Hin]).
Qed.

Lemma session_preserves evs st :
  In (activeSection st) (map id navItems) ->
  exists st' calls,
    session evs st = Ok (tt, st', calls)
    /\ In (activeSection st') (map id navItems).
Proof.
  revert st.
  induction evs as [|ev rest IH]; intros st Hin; cbn [session].
  - eexists _, _. split; [reflexivity | exact Hin].
  - destruct (handle_preserves ev st Hin) as (st1 & calls1 & H1 & Hin1).
    destruct (IH st1 Hin1) as (st2 & calls2 & H2 & Hin2).
    exists st2, (calls1 ++ calls2). split; [|exact Hin2].
    unfold bind. rewrite H1, H2. reflexivity.
Qed.

(** ** The scroll tracker *)

(** C1. A pass of the tracker at scroll offset [scrollY] looks at the
    position [scrollY + 100] and walks the sections in list order.  Either
    the list splits at a first section whose range contains that position
    (no earlier one does) and the pass ends with [activeSection] set to it,
    or no section contains the position and the state is returned as it
    was.  In both cases nothing else is written and no DOM call is made. *)
Theorem tracker_selects_first_match sections doc scrollY st :
  (exists before s after,
      sections = before ++ s :: after
      /\ matches doc (scrollY + 100) s
      /\ Forall (fun s' => ~ matches doc (scrollY + 100) s') before
      /\ trackSections sections doc scrollY st
         = Ok (tt, {| isMenuOpen := isMenuOpen st; activeSection := s |}, []))
  \/ (Forall (fun s' => ~ matches doc (scrollY + 100) s') sections
      /\ trackSections sections doc scrollY st = Ok (tt, st, [])).
Proof.
  rewrite trackSections_settle.
  destruct (firstMatch doc (scrollY + 100) sections) as [s|] eqn:Hf.
  - left. destruct (firstMatch_Some _ _ _ _ Hf) as (before & after & Hs & Hm & Hb).
    exists before, s, after. repeat split; assumption.
  - right. split; [|reflexivity]. now apply firstMatch_None.
Qed.

(** C2, as stated, fails when ranges overlap: in [overlapDoc] the position
    650 + 100 lies in the range of "about" (700-1499), yet the pass reports
    "home", whose range (0-799) contains it too and which comes first. *)
Lemma overlap_hides_later_section :
  In "about" (map id navItems)
  /\ matches overlapDoc (650 + 100) "about"
  /\ handleScroll overlapDoc 650 initialState
     = Ok (tt, {| isMenuOpen := false; activeSection := "home" |}, [])
  /\ "home" <> "about".
Proof.
  repeat split.
  - simpl. tauto.
  - apply matchesb_spec. reflexivity.
  - discriminate.
Qed.

(** C2, amended.  When the biased position [scrollY + 100] lies in the range
    of a section and in the range of no section that comes earlier in the
    list, the pass ends with that section as [activeSection]. *)
Theorem tracker_reports_unshadowed_section sections doc scrollY st before s after :
  sections = before ++ s :: after ->
  matches doc (scrollY + 100) s ->
  Forall (fun s' => ~ matches doc (scrollY + 100) s') before ->
  trackSections sections doc scrollY st
  = Ok (tt, {| isMenuOpen := isMenuOpen st; activeSection := s |}, []).
Proof.
  intros -> Hm Hb. rewrite trackSections_settle.
  rewrite (firstMatch_split _ _ _ _ _ Hm Hb). reflexivity.
Qed.

Lemma tracker_reports_unshadowed_section_witness :
  map id navItems = ["home"] ++ "about" :: ["skills"; "projects"; "contact"]
  /\ matches scenarioDoc (750 + 100) "about"
  /\ Forall (fun s' => ~ matches scenarioDoc (750 + 100) s') ["home"]
  /\ trackSections (map id navItems) scenarioDoc 750 initialState
     = Ok (tt, {| isMenuOpen := false; activeSection := "about" |}, []).
Proof.
  assert (Hm : matches scenarioDoc (750 + 100) "about")
    by (apply matchesb_spec; reflexivity).
  assert (Hb : Forall (fun s' => ~ matches scenarioDoc (750 + 100) s') ["home"])
    by (constructor; [apply matchesb_false; reflexivity | constructor]).
  split; [reflexivity|]. split; [exact Hm|]. split; [exact Hb|].
  exact (tracker_reports_unshadowed_section (map id navItems) scenarioDoc 750
           initialState ["home"] "about" ["skills"; "projects"; "contact"]
           eq_refl Hm Hb).
Defined.

(** C3. With home: 0-799, about: 800-1599, skills: 1600-2399, a pass at
    scroll offset 750 sets [activeSection] to "about" and a pass at 2500
    returns the state it was given, whatever that state is; this holds for
    the listener over [navItems] and for the tracker over the three
    sections of the scenario. *)
Theorem scenario_750_and_2500 st :
  handleScroll scenarioDoc 750 st
  = Ok (tt, {| isMenuOpen := isMenuOpen st; activeSection := "about" |}, [])
  /\ handleScroll scenarioDoc 2500 st = Ok (tt, st, [])
  /\ trackSections ["home"; "about"; "skills"] scenarioDoc 750 st
     = Ok (tt, {| isMenuOpen := isMenuOpen st; activeSection := "about" |}, [])
  /\ trackSections ["home"; "about"; "skills"] scenarioDoc 2500 st
     = Ok (tt, st, []).
Proof.
  unfold handleScroll. rewrite !trackSections_settle. repeat split.
Qed.

(** C4. [activeSection] starts as "home", the first identifier of
    [navItems], and after any sequence of events of a page session (scroll
    events with any document and offset, menu clicks, navigation clicks)
    the handlers have run without throwing and [activeSection] is one of
    the identifiers of [navItems]. *)
Theorem activeSection_always_a_section evs :
  map id navItems = ["home"; "about"; "skills"; "projects"; "contact"]
  /\ hd_error (map id navItems) = Some (activeSection initialState)
  /\ exists st calls,
       session evs initialState = Ok (tt, st, calls)
       /\ In (activeSection st) (map id navItems).
Proof.
  split; [reflexivity|]. split; [reflexivity|].
  apply session_preserves. simpl. tauto.
Qed.

(** C5. A second pass of the tracker with the same sections, document and
    scroll offset, started from the state the first pass produced, returns
    that same state. *)
Theorem tracker_idempotent sections doc scrollY st :
  exists st1,
    trackSections sections doc scrollY st = Ok (tt, st1, [])
    /\ trackSections sections doc scrollY st1 = Ok (tt, st1, []).
Proof.
  exists (settle (firstMatch doc (scrollY + 100) sections) st).
  rewrite !trackSections_settle, settle_idem. split; reflexivity.
Qed.

Lemma disjoint_unique doc sections pos s1 s2 :
  disjointRanges doc sections = true ->
  In s1 sections -> In s2 sections ->
  matches doc pos s1 -> matches doc pos s2 ->
  s1 = s2.
Proof.
  assert (Hpair : forall s rest s' e e',
             apartFrom doc s rest = true -> In s' rest ->
             getElementById doc s = Some e -> inRange e pos ->
             getElementById doc s' = Some e' -> inRange e' pos ->
             s = s').
  { intros s rest s' e e' Hap Hin He Hr He' Hr'.
    unfold apartFrom in Hap. rewrite forallb_forall in Hap.
    specialize (Hap s' Hin). apply orb_true_iff in Hap.
    destruct Hap as [Heq|Hap]; [now apply String.eqb_eq|].
    exfalso. rewrite He, He' in Hap. unfold rangesApart in Hap.
    unfold inRange in Hr, Hr'.
    repeat (apply orb_true_iff in Hap; destruct Hap as [Hap|Hap]);
      apply Z.leb_le in Hap; lia. }
  induction sections as [|s rest IH]; intros Hd H1 H2 M1 M2; [contradiction|].
  cbn [disjointRanges] in Hd. apply andb_true_iff in Hd.
  destruct Hd as [Hap Hrest].
  destruct M1 as (e1 & He1 & R1), M2 as (e2 & He2 & R2).
  destruct H1 as [<-|H1], H2 as [<-|H2].
  - reflexivity.
  - exact (Hpair _ _ _ _ _ Hap H2 He1 R1 He2 R2).
  - symmetry. exact (Hpair _ _ _ _ _ Hap H1 He2 R2 He1 R1).
  - apply IH; auto; [now exists e1 | now exists e2].
Qed.

(** The condition is no stronger than needed: where it fails, some
    position lies in the ranges of two different sections. *)
Lemma overlap_when_not_disjoint doc sections :
  disjointRanges doc sections = false ->
  exists pos s1 s2,
    In s1 sections /\ In s2 sections /\ s1 <> s2
    /\ matches doc pos s1 /\ matches doc pos s2.
Proof.
  induction sections as [|s rest IH]; cbn [disjointRanges]; [discriminate|].
  intros Hd. apply andb_false_iff in Hd. destruct Hd as [Hap|Hrest].
  - unfold apartFrom in Hap.
    assert (Hex : exists s', In s' rest
                   /\ (String.eqb s s'
                       || match getElementById doc s, getElementById doc s' with
                          | Some a, Some b => rangesApart a b
                          | _, _ => true
                          end) = false).
    { clear IH. induction rest as [|x rest IHr]; [discriminate|].
      cbn [forallb] in Hap. apply andb_false_iff in Hap.
      destruct Hap as [Hx|Hr].
      - exists x. split; [now left | exact Hx].
      - destruct (IHr Hr) as (s' & Hin & Hs'). exists s'. split; [now right | exact Hs']. }
    destruct Hex as (s' & Hin & Hs').
    apply orb_false_iff in Hs'. destruct Hs' as [Hne Hov].
    apply String.eqb_neq in Hne.
    destruct (getElementById doc s) as [a|] eqn:Ha; [|discriminate].
    destruct (getElementById doc s') as [b|] eqn:Hb; [|discriminate].
    unfold rangesApart in Hov.
    repeat (apply orb_false_iff in Hov; destruct Hov as [Hov ?]).
    repeat match goal with
           | H : (_ <=? _) = false |- _ => apply Z.leb_gt in H
           end.
    exists (Z.max (offsetTop a) (offsetTop b)), s, s'.
    split; [now left|]. split; [now right|]. split; [exact Hne|].
    split; [exists a | exists b]; (split; [assumption | unfold inRange; lia]).
  - destruct (IH Hrest) as (pos & s1 & s2 & H1 & H2 & Hne & M1 & M2).
    exists pos, s1, s2. repeat split; auto; now right.
Qed.

(** C6, as stated, fails: nothing in the tracker keeps ranges apart.  In
    [overlapDoc] the position 650 + 100 lies in the ranges of two different
    sections, "home" and "about"; the pass makes "home" active. *)
Lemma overlapDoc_two_sections_match :
  In "home" (map id navItems) /\ In "about" (map id navItems)
  /\ matches overlapDoc (650 + 100) "home"
  /\ matches overlapDoc (650 + 100) "about"
  /\ "home" <> "about"
  /\ handleScroll overlapDoc 650 initialState
     = Ok (tt, {| isMenuOpen := false; activeSection := "home" |}, []).
Proof.
  split; [simpl; tauto|]. split; [simpl; tauto|].
  split; [apply matchesb_spec; reflexivity|].
  split; [apply matchesb_spec; reflexivity|].
  split; [discriminate | reflexivity].
Qed.

(** C6, amended.  When no two different sections have ranges that share a
    position (in whatever order the ranges lie), at most one section's
    range contains the biased position [scrollY + 100], and a pass of the
    tracker makes that section active. *)
Theorem disjoint_sections_at_most_one_match doc sections scrollY st s1 s2 :
  disjointRanges doc sections = true ->
  In s1 sections -> In s2 sections ->
  matches doc (scrollY + 100) s1 -> matches doc (scrollY + 100) s2 ->
  s1 = s2
  /\ trackSections sections doc scrollY st
     = Ok (tt, {| isMenuOpen := isMenuOpen st; activeSection := s1 |}, []).
Proof.
  intros Hd H1 H2 M1 M2.
  split; [exact (disjoint_unique _ _ _ _ _ Hd H1 H2 M1 M2)|].
  rewrite trackSections_settle.
  destruct (firstMatch doc (scrollY + 100) sections) as [s|] eqn:Hf.
  - assert (s = s1) as ->; [|reflexivity].
    apply (disjoint_unique doc sections (scrollY + 100)); auto.
    + now apply firstMatch_In in Hf.
    + apply firstMatch_Some in Hf. now destruct Hf as (_ & _ & _ & Hm & _).
  - apply firstMatch_None in Hf. rewrite Forall_forall in Hf.
    exfalso. exact (Hf s1 H1 M1).
Qed.

Lemma disjoint_sections_at_most_one_match_witness :
  disjointRanges swappedDoc (map id navItems) = true
  /\ stacked swappedDoc (map id navItems) = false
  /\ In "about" (map id navItems)
  /\ matches swappedDoc (650 + 100) "about"
  /\ "about" = "about"
  /\ trackSections (map id navItems) swappedDoc 650 initialState
     = Ok (tt, {| isMenuOpen := false; activeSection := "about" |}, []).
Proof.
  assert (Hin : In "about" (map id navItems)) by (simpl; tauto).
  assert (Hm : matches swappedDoc (650 + 100) "about")
    by (apply matchesb_spec; reflexivity).
  split; [reflexivity|]. split; [reflexivity|].
  split; [exact Hin|]. split; [exact Hm|].
  exact (disjoint_sections_at_most_one_match swappedDoc (map id navItems) 650
           initialState "about" "about" eq_refl Hin Hin Hm Hm).
Defined.

(** C7, as stated, fails when the first section does not reach the biased
    position: in [shortHomeDoc] the first section "home" spans 0-49, and a
    pass at scroll offset 0 looks at position 100 and makes "about"
    active. *)
Lemma short_first_section_not_active_at_top :
  hd_error (map id navItems) = Some "home"
  /\ handleScroll shortHomeDoc 0 initialState
     = Ok (tt, {| isMenuOpen := false; activeSection := "about" |}, [])
  /\ "about" <> "home".
Proof.
  split; [reflexivity|]. split; [reflexivity|]. discriminate.
Qed.

(** C7, amended.  At scroll offset 0 the pass makes the first section of the
    list active provided that section has an element whose range contains
    position 100, the bias. *)
Theorem top_of_page_activates_first_section first rest doc st e :
  getElementById doc first = Some e ->
  inRange e 100 ->
  trackSections (first :: rest) doc 0 st
  = Ok (tt, {| isMenuOpen := isMenuOpen st; activeSection := first |}, []).
Proof.
  intros He Hr. rewrite trackSections_settle.
  assert (Hm : matches doc (0 + 100) first) by (exists e; split; assumption).
  pose proof (firstMatch_split doc (0 + 100) [] first rest Hm (Forall_nil _))
    as Hf.
  cbn [app] in Hf. rewrite Hf. reflexivity.
Qed.

Lemma top_of_page_activates_first_section_witness :
  getElementById scenarioDoc "home" = Some (mkElement "home" 0 800)
  /\ inRange (mkElement "home" 0 800) 100
  /\ trackSections ("home" :: ["about"; "skills"; "projects"; "contact"])
       scenarioDoc 0 {| isMenuOpen := true; activeSection := "skills" |}
     = Ok (tt, {| isMenuOpen := true; activeSection := "home" |}, []).
Proof.
  assert (Hr : inRange (mkElement "home" 0 800) 100)
    by (unfold inRange; simpl; lia).
  split; [reflexivity|]. split; [exact Hr|].
  exact (top_of_page_activates_first_section "home"
           ["about"; "skills"; "projects"; "contact"] scenarioDoc
           {| isMenuOpen := true; activeSection := "skills" |}
           (mkElement "home" 0 800) eq_refl Hr).
Defined.

(** C8. For every list of sections, document, scroll offset and state, a
    pass of the tracker returns a state: it does not throw and makes no DOM
    call.  The state it returns is the one the pass returns on the list
    from which the sections without an element have been removed. *)
Theorem tracker_total_skips_missing sections doc scrollY st :
  exists st',
    trackSections sections doc scrollY st = Ok (tt, st', [])
    /\ trackSections
         (filter (fun s => truthy (getElementById doc s)) sections)
         doc scrollY st
       = Ok (tt, st', []).
Proof.
  exists (settle (firstMatch doc (scrollY + 100) sections) st).
  rewrite !trackSections_settle, firstMatch_present. split; reflexivity.
Qed.

(** ** Which handler writes which hook *)

(** C9, as stated, fails: the menu-open flag is a second piece of state
    that user actions mutate.  The menu button opens the menu from the
    initial state, and a navigation click closes an open menu. *)
Lemma menu_button_mutates_isMenuOpen :
  isMenuOpen initialState = false
  /\ handle MenuButton initialState
     = Ok (tt, {| isMenuOpen := true; activeSection := "home" |}, [])
  /\ handle (NavClick scenarioDoc "about")
       {| isMenuOpen := true; activeSection := "home" |}
     = Ok (tt, {| isMenuOpen := false; activeSection := "home" |},
           [ScrollIntoView (mkElement "about" 800 800) "smooth"]).
Proof. repeat split. Qed.

(** C9, amended.  Every event is handled without throwing, and the state
    has two mutable values with separate writers: a scroll event may change
    [activeSection] only (to the first matching section, if there is one)
    and leaves [isMenuOpen] as it was; the menu button negates [isMenuOpen]
    and a navigation click sets it to false, and both leave [activeSection]
    as it was. *)
Theorem handlers_write_separate_hooks ev st :
  exists st' calls,
    handle ev st = Ok (tt, st', calls)
    /\ match ev with
       | Scroll doc scrollY =>
           isMenuOpen st' = isMenuOpen st
           /\ activeSection st'
              = match firstMatch doc (scrollY + 100) (map id navItems) with
                | Some s => s
                | None => activeSection st
                end
           /\ calls = []
       | MenuButton =>
           isMenuOpen st' = negb (isMenuOpen st)
           /\ activeSection st' = activeSection st
           /\ calls = []
       | NavClick _ _ =>
           isMenuOpen st' = false
           /\ activeSection st' = activeSection st
       end.
Proof.
  destruct ev as [doc scrollY| |doc sectionId]; cbn [handle].
  - unfold handleScroll. rewrite trackSections_settle.
    eexists _, _. split; [reflexivity|].
    destruct (firstMatch doc (scrollY + 100) (map id navItems));
      repeat split.
  - eexists _, _. split; [reflexivity|]. repeat split.
  - unfold scrollToSection.
    destruct (getElementById doc sectionId);
      eexists _, _; (split; [reflexivity|]); repeat split.
Qed.

(** C10. For every document, section identifier and state,
    [scrollToSection] ends with [isMenuOpen] false and [activeSection] as it
    was; it asks the browser to scroll the element into view when the
    element exists and makes no DOM call when it does not. *)
Theorem scrollToSection_closes_menu_keeps_active doc sectionId st :
  scrollToSection doc sectionId st
  = Ok (tt,
        {| isMenuOpen := false; activeSection := activeSection st |},
        match getElementById doc sectionId with
        | Some e => [ScrollIntoView e "smooth"]
        | None => []
        end).
Proof.
  unfold scrollToSection.
  destruct (getElementById doc sectionId); reflexivity.
Qed.

(** ** Sessions, event by event *)

Lemma handle_step ev st :
  handle ev st
  = Ok (tt,
        {| isMenuOpen := menuStep (isMenuOpen st) ev;
           activeSection := activeStep (activeSection st) ev |},
        callsOf ev).
Proof.
  destruct st as [open active].
  destruct ev as [doc scrollY| |doc sectionId]; cbn [handle].
  - rewrite handleScroll_settle. cbn [menuStep activeStep callsOf isMenuOpen activeSection].
    destruct (firstMatch doc (scrollY + 100) (map id navItems)); reflexivity.
  - reflexivity.
  - unfold scrollToSection. cbn [callsOf].
    destruct (getElementById doc sectionId); reflexivity.
Qed.

Lemma fold_left_filter_skip {A B} (f : A -> B -> A) (p : B -> bool) l a :
  (forall x a', p x = false -> f a' x = a') ->
  fold_left f (filter p l) a = fold_left f l a.
Proof.
  intros Hskip. revert a.
  induction l as [|x rest IH]; intros a; [reflexivity|].
  cbn [filter fold_left]. destruct (p x) eqn:Hp.
  - cbn [fold_left]. apply IH.
  - rewrite (Hskip x a Hp). apply IH.
Qed.

Lemma fold_left_filter_fixed {A B} (f : A -> B -> A) (p : B -> bool) l a :
  (forall x a', p x = true -> f a' x = a') ->
  fold_left f (filter p l) a = a.
Proof.
  intros Hfix. revert a.
  induction l as [|x rest IH]; intros a; [reflexivity|].
  cbn [filter]. destruct (p x) eqn:Hp; [|apply IH].
  cbn [fold_left]. rewrite (Hfix x a Hp). apply IH.
Qed.

Lemma callsOf_scrolls evs : flat_map callsOf (filter isScroll evs) = [].
Proof.
  induction evs as [|ev rest IH]; [reflexivity|].
  destruct ev; cbn [filter isScroll flat_map callsOf app]; exact IH.
Qed.

Lemma callsOf_not_scrolls evs :
  flat_map callsOf (filter (fun ev => negb (isScroll ev)) evs)
  = flat_map callsOf evs.
Proof.
  induction evs as [|ev rest IH]; [reflexivity|].
  destruct ev; cbn [filter isScroll negb flat_map callsOf app];
    rewrite IH; reflexivity.
Qed.

Lemma session_run evs st :
  session evs st
  = Ok (tt,
        {| isMenuOpen := fold_left menuStep evs (isMenuOpen st);
           activeSection := fold_left activeStep evs (activeSection st) |},
        flat_map callsOf evs).
Proof.
  revert st.
  induction evs as [|ev rest IH]; intros st; cbn [session].
  - destruct st; reflexivity.
  - unfold bind. rewrite handle_step, IH. reflexivity.
Qed.

Lemma handleRendered_step rendered ev st :
  handleRendered rendered ev st
  = Ok (tt,
        {| isMenuOpen :=
             menuStepRendered (isMenuOpen rendered) (isMenuOpen st) ev;
           activeSection := activeStep (activeSection st) ev |},
        callsOf ev).
Proof.
  destruct ev as [doc scrollY| |doc sectionId];
    [apply (handle_step (Scroll doc scrollY))
    | reflexivity
    | apply (handle_step (NavClick doc sectionId))].
Qed.

Lemma batch_run rendered evs st :
  batch rendered evs st
  = Ok (tt,
        {| isMenuOpen :=
             fold_left (menuStepRendered (isMenuOpen rendered)) evs
                       (isMenuOpen st);
           activeSection := fold_left activeStep evs (activeSection st) |},
        flat_map callsOf evs).
Proof.
  revert st.
  induction evs as [|ev rest IH]; intros st; cbn [batch].
  - destruct st; reflexivity.
  - unfold bind. rewrite handleRendered_step, IH. reflexivity.
Qed.

(** X1. Events handled by the closures of one render never throw, and
    their result is determined event by event: each menu click writes the
    negation of the flag that render saw (so two clicks within one render
    write the same value), each navigation click clears the flag, each
    scroll pass that has a first match replaces the active section, and the
    DOM calls are the smooth scrolls of the navigation clicks whose element
    exists, in order.  When the component renders before every event, each
    menu click negates the current flag, and the session ends as the
    event-by-event run of the handlers does. *)
Theorem rendered_session_trace rendered evs st :
  batch rendered evs st
  = Ok (tt,
        {| isMenuOpen :=
             fold_left (menuStepRendered (isMenuOpen rendered)) evs
                       (isMenuOpen st);
           activeSection := fold_left activeStep evs (activeSection st) |},
        flat_map callsOf evs)
  /\ batch rendered [MenuButton; MenuButton] rendered
     = Ok (tt,
           {| isMenuOpen := negb (isMenuOpen rendered);
              activeSection := activeSection rendered |}, [])
  /\ batches (map (fun ev => [ev]) evs) st
     = Ok (tt,
           {| isMenuOpen := fold_left menuStep evs (isMenuOpen st);
              activeSection := fold_left activeStep evs (activeSection st) |},
           flat_map callsOf evs)
  /\ batches (map (fun ev => [ev]) evs) st = session evs st.
Proof.
  assert (Hb : forall st',
             batches (map (fun ev => [ev]) evs) st'
             = Ok (tt,
                   {| isMenuOpen := fold_left menuStep evs (isMenuOpen st');
                      activeSection :=
                        fold_left activeStep evs (activeSection st') |},
                   flat_map callsOf evs)).
  { induction evs as [|ev rest IH]; intros st'; cbn [map batches].
    - destruct st'; reflexivity.
    - unfold bind. rewrite batch_run. cbn [fold_left flat_map].
      rewrite IH. cbn [isMenuOpen activeSection]. rewrite app_nil_r.
      destruct ev; reflexivity. }
  split; [apply batch_run|]. split; [reflexivity|].
  split; [apply Hb|]. rewrite Hb, session_run. reflexivity.
Qed.

(** X2. Scroll events and the other events do not interfere.  The active
    section a session ends with is the one its scroll events alone produce;
    the menu flag and the DOM calls are the ones its menu and navigation
    clicks alone produce.  Scroll events alone leave the menu flag as it
    was and make no DOM call; clicks alone leave the active section as it
    was. *)
Theorem session_scrolls_and_clicks_independent evs st :
  exists st1 st2 st3 calls,
    session evs st = Ok (tt, st1, calls)
    /\ session (filter isScroll evs) st = Ok (tt, st2, [])
    /\ session (filter (fun ev => negb (isScroll ev)) evs) st
       = Ok (tt, st3, calls)
    /\ activeSection st1 = activeSection st2
    /\ isMenuOpen st1 = isMenuOpen st3
    /\ isMenuOpen st2 = isMenuOpen st
    /\ activeSection st3 = activeSection st.
Proof.
  eexists _, _, _, _.
  split; [apply session_run|].
  split; [rewrite session_run, callsOf_scrolls; reflexivity|].
  split; [rewrite session_run, callsOf_not_scrolls; reflexivity|].
  cbn [isMenuOpen activeSection]. repeat split.
  - symmetry. apply fold_left_filter_skip.
    intros [| |] a' H; (discriminate || reflexivity).
  - symmetry. apply fold_left_filter_skip.
    intros [| |] a' H; (discriminate || reflexivity).
  - apply fold_left_filter_fixed.
    intros [| |] a' H; (discriminate || reflexivity).
  - apply fold_left_filter_fixed.
    intros [| |] a' H; (discriminate || reflexivity).
Qed.

(** X3. Every DOM call made during a session is a smooth scroll to an
    element that a navigation click of that session asked for: the element
    found for the clicked identifier, carrying that identifier. *)
Theorem session_scrolls_only_to_clicked_sections evs st :
  exists st' calls,
    session evs st = Ok (tt, st', calls)
    /\ Forall (fun c =>
                 exists doc sectionId e,
                   In (NavClick doc sectionId) evs
                   /\ getElementById doc sectionId = Some e
                   /\ elem_id e = sectionId
                   /\ c = ScrollIntoView e "smooth") calls.
Proof.
  eexists _, _. split; [apply session_run|].
  apply Forall_forall. intros c Hc.
  apply in_flat_map in Hc. destruct Hc as (ev & Hev & Hc).
  destruct ev as [doc scrollY| |doc sectionId]; cbn [callsOf] in Hc;
    try contradiction.
  destruct (getElementById doc sectionId) as [e|] eqn:He; [|contradiction].
  destruct Hc as [<-|[]].
  exists doc, sectionId, e.
  split; [exact Hev|]. split; [exact He|].
  split; [exact (getElementById_id _ _ _ He) | reflexivity].
Qed.

(** ** More on the tracker and the geometry it reads *)

Lemma stacked_tail doc s rest :
  stacked doc (s :: rest) = true -> stacked doc rest = true.
Proof.
  unfold stacked. cbn [geometry flat_map]. fold (geometry doc rest).
  destruct (getElementById doc s) as [e|]; cbn [app]; [|trivial].
  apply stackedFrom_inner.
Qed.

Lemma stacked_order doc before s2 after s1 e1 e2 :
  stacked doc (before ++ s2 :: after) = true ->
  In s1 after ->
  getElementById doc s2 = Some e2 ->
  getElementById doc s1 = Some e1 ->
  offsetTop e2 + offsetHeight e2 <= offsetTop e1.
Proof.
  intros Hst Hin H2 H1.
  induction before as [|x before IH]; cbn [app] in Hst.
  - unfold stacked in Hst. cbn [geometry flat_map] in Hst.
    fold (geometry doc after) in Hst. rewrite H2 in Hst. cbn [app] in Hst.
    apply (stackedFrom_lower _ _ Hst). now apply geometry_In with s1.
  - apply IH. now apply stacked_tail in Hst.
Qed.

Lemma firstMatch_ext d1 d2 pos sections :
  (forall s, In s sections -> getElementById d1 s = getElementById d2 s) ->
  firstMatch d1 pos sections = firstMatch d2 pos sections.
Proof.
  unfold firstMatch.
  induction sections as [|s rest IH]; intros H; [reflexivity|].
  cbn [find]. unfold matchesb at 1 3.
  rewrite (H s (or_introl eq_refl)).
  destruct (getElementById d2 s) as [e|].
  - destruct (inRangeb e pos); [reflexivity|].
    apply IH. intros s' Hs'. apply H. now right.
  - apply IH. intros s' Hs'. apply H. now right.
Qed.

Lemma getElementById_app doc extra s :
  getElementById (doc ++ extra) s
  = match getElementById doc s with
    | Some e => Some e
    | None => getElementById extra s
    end.
Proof.
  unfold getElementById.
  induction doc as [|x doc IH]; [reflexivity|].
  cbn [app find]. destruct (String.eqb (elem_id x) s); [reflexivity | exact IH].
Qed.

Lemma getElementById_taken doc extra s :
  forallb (fun e => truthy (getElementById doc (elem_id e))) extra = true ->
  getElementById (doc ++ extra) s = getElementById doc s.
Proof.
  intros Htaken. rewrite getElementById_app.
  destruct (getElementById doc s) as [e|] eqn:Hs; [reflexivity|].
  destruct (getElementById extra s) as [x|] eqn:Hx; [|reflexivity].
  exfalso.
  pose proof (getElementById_id _ _ _ Hx) as Hid.
  unfold getElementById in Hx. apply find_some in Hx. destruct Hx as [Hin _].
  rewrite forallb_forall in Htaken. specialize (Htaken x Hin).
  rewrite Hid, Hs in Htaken. discriminate.
Qed.

Lemma getElementById_relevant doc sections s :
  In s sections ->
  getElementById
    (filter (fun e => existsb (String.eqb (elem_id e)) sections) doc) s
  = getElementById doc s.
Proof.
  intros Hin. unfold getElementById.
  induction doc as [|x doc IH]; [reflexivity|].
  cbn [filter find].
  destruct (existsb (String.eqb (elem_id x)) sections) eqn:Hk.
  - cbn [find]. destruct (String.eqb (elem_id x) s); [reflexivity | exact IH].
  - destruct (String.eqb (elem_id x) s) eqn:Hx; [|exact IH].
    exfalso. assert (Ht : existsb (String.eqb (elem_id x)) sections = true).
    { apply existsb_exists. exists s. split; assumption. }
    congruence.
Qed.

(** X4. An element that reports no height (a section hidden from layout)
    is never picked: whatever the sections, the document and the scroll
    offset, a pass does not make such a section active unless it was
    active already. *)
Theorem hidden_section_never_activated sections doc scrollY st s e :
  getElementById doc s = Some e ->
  offsetHeight e <= 0 ->
  activeSection st <> s ->
  exists st',
    trackSections sections doc scrollY st = Ok (tt, st', [])
    /\ activeSection st' <> s.
Proof.
  intros He Hh Hst. rewrite trackSections_settle.
  eexists. split; [reflexivity|].
  destruct (firstMatch doc (scrollY + 100) sections) as [s'|] eqn:Hf;
    cbn [settle withActive activeSection]; [|exact Hst].
  intros ->. apply firstMatch_Some in Hf.
  destruct Hf as (_ & _ & _ & (e' & He' & Hr) & _).
  rewrite He in He'. injection He' as <-. unfold inRange in Hr. lia.
Qed.

Lemma hidden_section_never_activated_witness :
  getElementById hiddenAboutDoc "about" = Some (mkElement "about" 800 0)
  /\ offsetHeight (mkElement "about" 800 0) <= 0
  /\ activeSection initialState <> "about"
  /\ (exists st',
        trackSections (map id navItems) hiddenAboutDoc 750 initialState
        = Ok (tt, st', [])
        /\ activeSection st' <> "about")
  /\ trackSections (map id navItems) hiddenAboutDoc 750 initialState
     = Ok (tt, {| isMenuOpen := false; activeSection := "skills" |}, [])
  /\ trackSections (map id navItems)
       [ mkElement "home" 0 800; mkElement "about" 800 800;
         mkElement "skills" 800 800 ] 750 initialState
     = Ok (tt, {| isMenuOpen := false; activeSection := "about" |}, []).
Proof.
  assert (Hh : offsetHeight (mkElement "about" 800 0) <= 0) by (simpl; lia).
  assert (Hst : activeSection initialState <> "about") by discriminate.
  split; [reflexivity|]. split; [exact Hh|]. split; [exact Hst|].
  split; [|split; reflexivity].
  exact (hidden_section_never_activated (map id navItems) hiddenAboutDoc 750
           initialState "about" (mkElement "about" 800 0) eq_refl Hh Hst).
Defined.

(** X5. In a stacked layout, scrolling further down never moves the active
    section back up: if the biased position of a first offset lies in
    section [s1] and that of a larger offset lies in section [s2], the two
    passes report [s1] and [s2], and [s1] is [s2] or comes before it in the
    list. *)
Theorem stacked_scroll_down_is_monotone sections doc y1 y2 s1 s2 st :
  stacked doc sections = true ->
  y1 <= y2 ->
  In s1 sections -> In s2 sections ->
  matches doc (y1 + 100) s1 -> matches doc (y2 + 100) s2 ->
  trackSections sections doc y1 st = Ok (tt, withActive s1 st, [])
  /\ trackSections sections doc y2 st = Ok (tt, withActive s2 st, [])
  /\ exists before after,
       sections = before ++ s2 :: after /\ (s1 = s2 \/ In s1 before).
Proof.
  intros Hst Hy H1 H2 M1 M2.
  assert (Hfirst : forall y s, In s sections -> matches doc (y + 100) s ->
                               firstMatch doc (y + 100) sections = Some s).
  { intros y s Hs Hm.
    destruct (firstMatch doc (y + 100) sections) as [s'|] eqn:Hf.
    - f_equal. apply (stacked_disjoint doc sections (y + 100)); auto.
      + now apply firstMatch_In in Hf.
      + apply firstMatch_Some in Hf. now destruct Hf as (_ & _ & _ & Hm' & _).
    - apply firstMatch_None in Hf. rewrite Forall_forall in Hf.
      exfalso. exact (Hf s Hs Hm). }
  rewrite !trackSections_settle.
  rewrite (Hfirst y1 s1 H1 M1), (Hfirst y2 s2 H2 M2).
  split; [reflexivity|]. split; [reflexivity|].
  destruct (firstMatch_Some _ _ _ _ (Hfirst y2 s2 H2 M2))
    as (before & after & Hsplit & _ & _).
  exists before, after. split; [exact Hsplit|].
  rewrite Hsplit in H1. apply in_app_or in H1.
  destruct H1 as [H1|[H1|H1]]; [now right | now left |].
  exfalso. destruct M1 as (e1 & He1 & R1), M2 as (e2 & He2 & R2).
  rewrite Hsplit in Hst.
  pose proof (stacked_order _ _ _ _ _ _ _ Hst H1 He2 He1).
  unfold inRange in R1, R2. lia.
Qed.

Lemma stacked_scroll_down_is_monotone_witness :
  stacked scenarioDoc (map id navItems) = true
  /\ 100 <= 1000
  /\ matches scenarioDoc (100 + 100) "home"
  /\ matches scenarioDoc (1000 + 100) "about"
  /\ trackSections (map id navItems) scenarioDoc 100 initialState
     = Ok (tt, withActive "home" initialState, [])
  /\ trackSections (map id navItems) scenarioDoc 1000 initialState
     = Ok (tt, withActive "about" initialState, [])
  /\ exists before after,
       map id navItems = before ++ "about" :: after
       /\ ("home" = "about" \/ In "home" before).
Proof.
  assert (Hy : 100 <= 1000) by lia.
  assert (H1 : In "home" (map id navItems)) by (simpl; tauto).
  assert (H2 : In "about" (map id navItems)) by (simpl; tauto).
  assert (M1 : matches scenarioDoc (100 + 100) "home")
    by (apply matchesb_spec; reflexivity).
  assert (M2 : matches scenarioDoc (1000 + 100) "about")
    by (apply matchesb_spec; reflexivity).
  split; [reflexivity|]. split; [exact Hy|].
  split; [exact M1|]. split; [exact M2|].
  exact (stacked_scroll_down_is_monotone (map id navItems) scenarioDoc
           100 1000 "home" "about" initialState eq_refl Hy H1 H2 M1 M2).
Defined.

Lemma contiguous_covered doc pos sections bottom :
  contiguousFrom bottom (geometry doc sections) = true ->
  bottom <= pos < lastEnd bottom (geometry doc sections) ->
  exists s, firstMatch doc pos sections = Some s.
Proof.
  unfold firstMatch. revert bottom.
  induction sections as [|x rest IH]; intros bottom Hc Hpos.
  - cbn [geometry flat_map lastEnd] in Hpos. lia.
  - cbn [geometry flat_map] in Hc, Hpos. fold (geometry doc rest) in Hc, Hpos.
    cbn [find]. unfold matchesb at 1.
    destruct (getElementById doc x) as [e|]; cbn [app] in Hc, Hpos.
    + cbn [contiguousFrom] in Hc. cbn [lastEnd] in Hpos.
      apply andb_true_iff in Hc. destruct Hc as [Hc Hrest].
      apply andb_true_iff in Hc. destruct Hc as [Htop Hh].
      apply Z.eqb_eq in Htop. apply Z.leb_le in Hh.
      destruct (inRangeb e pos) eqn:Hr; [now exists x|].
      apply (IH _ Hrest).
      assert (Hnot : ~ inRange e pos).
      { intros Hin. apply inRangeb_spec in Hin. congruence. }
      unfold inRange in Hnot. lia.
    + now apply (IH bottom).
Qed.

(** X6. A contiguous layout has no dead zone: when the sections that have
    an element start at [top], have non-negative heights and each begin
    where the previous one ends, every pass whose biased position lies
    between [top] and the end of the last section makes active a section
    whose range contains that position. *)
Theorem contiguous_layout_always_tracks sections doc scrollY st top :
  contiguousFrom top (geometry doc sections) = true ->
  top <= scrollY + 100 < lastEnd top (geometry doc sections) ->
  exists s,
    In s sections
    /\ matches doc (scrollY + 100) s
    /\ trackSections sections doc scrollY st
       = Ok (tt, {| isMenuOpen := isMenuOpen st; activeSection := s |}, []).
Proof.
  intros Hc Hpos.
  destruct (contiguous_covered _ _ _ _ Hc Hpos) as [s Hf].
  exists s. split; [now apply firstMatch_In in Hf|].
  split.
  - apply firstMatch_Some in Hf. now destruct Hf as (_ & _ & _ & Hm & _).
  - rewrite trackSections_settle, Hf. reflexivity.
Qed.

Lemma contiguous_layout_always_tracks_witness :
  contiguousFrom 0 (geometry scenarioDoc (map id navItems)) = true
  /\ 0 <= 1500 + 100 < lastEnd 0 (geometry scenarioDoc (map id navItems))
  /\ exists s,
       In s (map id navItems)
       /\ matches scenarioDoc (1500 + 100) s
       /\ trackSections (map id navItems) scenarioDoc 1500 initialState
          = Ok (tt, {| isMenuOpen := false; activeSection := s |}, []).
Proof.
  assert (Hpos : 0 <= 1500 + 100
                 < lastEnd 0 (geometry scenarioDoc (map id navItems)))
    by (vm_compute; split; [discriminate | reflexivity]).
  split; [reflexivity|]. split; [exact Hpos|].
  exact (contiguous_layout_always_tracks (map id navItems) scenarioDoc 1500
           initialState 0 eq_refl Hpos).
Defined.

(** X7. A pass whose biased position lies outside the range of every
    section that has an element (above them all, past them all, or in a
    gap) returns the state unchanged. *)
Theorem outside_every_range_keeps_state sections doc scrollY st :
  Forall (fun e => scrollY + 100 < offsetTop e
                   \/ offsetTop e + offsetHeight e <= scrollY + 100)
         (geometry doc sections) ->
  trackSections sections doc scrollY st = Ok (tt, st, []).
Proof.
  intros Hout. rewrite trackSections_settle.
  destruct (firstMatch doc (scrollY + 100) sections) as [s|] eqn:Hf;
    [|reflexivity].
  exfalso. pose proof (firstMatch_In _ _ _ _ Hf) as Hin.
  apply firstMatch_Some in Hf. destruct Hf as (_ & _ & _ & (e & He & Hr) & _).
  rewrite Forall_forall in Hout.
  specialize (Hout e (geometry_In _ _ _ _ Hin He)).
  unfold inRange in Hr. lia.
Qed.

Lemma outside_every_range_keeps_state_witness :
  Forall (fun e => -150 + 100 < offsetTop e
                   \/ offsetTop e + offsetHeight e <= -150 + 100)
         (geometry scenarioDoc (map id navItems))
  /\ trackSections (map id navItems) scenarioDoc (-150)
       {| isMenuOpen := true; activeSection := "skills" |}
     = Ok (tt, {| isMenuOpen := true; activeSection := "skills" |}, []).
Proof.
  assert (Hout : Forall (fun e => -150 + 100 < offsetTop e
                                  \/ offsetTop e + offsetHeight e <= -150 + 100)
                        (geometry scenarioDoc (map id navItems)))
    by (repeat constructor; simpl; lia).
  split; [exact Hout|].
  exact (outside_every_range_keeps_state (map id navItems) scenarioDoc (-150)
           {| isMenuOpen := true; activeSection := "skills" |} Hout).
Defined.

(** X8. The first element with an identifier is the one both handlers
    use: appending to the document elements whose identifiers are already
    taken changes neither the result of a tracker pass nor that of
    [scrollToSection]. *)
Theorem duplicate_ids_first_element_wins sections doc extra scrollY
    sectionId st :
  forallb (fun e => truthy (getElementById doc (elem_id e))) extra = true ->
  trackSections sections (doc ++ extra) scrollY st
  = trackSections sections doc scrollY st
  /\ scrollToSection (doc ++ extra) sectionId st
     = scrollToSection doc sectionId st.
Proof.
  intros Htaken. split.
  - rewrite !trackSections_settle.
    rewrite (firstMatch_ext (doc ++ extra) doc); [reflexivity|].
    intros s _. now apply getElementById_taken.
  - unfold scrollToSection. now rewrite getElementById_taken.
Qed.

Lemma duplicate_ids_first_element_wins_witness :
  forallb (fun e => truthy (getElementById scenarioDoc (elem_id e)))
          [mkElement "about" 0 5000] = true
  /\ trackSections (map id navItems)
       (scenarioDoc ++ [mkElement "about" 0 5000]) 0 initialState
     = trackSections (map id navItems) scenarioDoc 0 initialState
  /\ scrollToSection (scenarioDoc ++ [mkElement "about" 0 5000]) "about"
       initialState
     = scrollToSection scenarioDoc "about" initialState.
Proof.
  split; [reflexivity|].
  exact (duplicate_ids_first_element_wins (map id navItems) scenarioDoc
           [mkElement "about" 0 5000] 0 "about" initialState eq_refl).
Defined.

(** X9. A tracker pass looks only at elements whose identifier is one of
    the sections: dropping every other element from the document leaves
    the result of the pass unchanged. *)
Theorem tracker_ignores_other_elements sections doc scrollY st :
  trackSections sections
    (filter (fun e => existsb (String.eqb (elem_id e)) sections) doc)
    scrollY st
  = trackSections sections doc scrollY st.
Proof.
  rewrite !trackSections_settle.
  rewrite (firstMatch_ext
             (filter (fun e => existsb (String.eqb (elem_id e)) sections) doc)
             doc); [reflexivity|].
  intros s Hs. now apply getElementById_relevant.
Qed.

(** ** The rendered navigation *)

(** X10. After any session started from the initial state, exactly one
    button of the desktop navigation carries the highlight class, and it is
    the button of the active section. *)
Theorem exactly_one_nav_button_highlighted evs :
  exists st calls,
    session evs initialState = Ok (tt, st, calls)
    /\ map key (filter isHighlighted (desktopNav st)) = [activeSection st].
Proof.
  destruct (session_preserves evs initialState) as (st & calls & Hs & Hin).
  { simpl. tauto. }
  exists st, calls. split; [exact Hs|].
  destruct st as [open active]. cbn [activeSection] in *.
  simpl in Hin.
  destruct Hin as [<-|[<-|[<-|[<-|[<-|[]]]]]]; reflexivity.
Qed.

(** X11. Clicking any button of the open mobile menu closes it: the click
    is handled without throwing, the mobile navigation is no longer
    rendered, the menu button shows the [Menu] icon again, the desktop
    navigation is rendered as before, and the identifier passed to
    [scrollToSection] is one of the section identifiers. *)
Theorem mobile_nav_click_closes_menu st doc buttons b :
  mobileNav st = Some buttons ->
  In b buttons ->
  exists st' calls,
    scrollToSection doc (onClickSection b) st = Ok (tt, st', calls)
    /\ mobileNav st' = None
    /\ menuButtonIcon st' = IconMenu
    /\ desktopNav st' = desktopNav st
    /\ In (onClickSection b) (map id navItems).
Proof.
  intros Hnav Hb. unfold scrollToSection.
  assert (Hid : In (onClickSection b) (map id navItems)).
  { unfold mobileNav in Hnav. destruct (isMenuOpen st); [|discriminate].
    injection Hnav as <-. simpl in Hb.
    destruct Hb as [<-|[<-|[<-|[<-|[<-|[]]]]]]; simpl; tauto. }
  destruct (getElementById doc (onClickSection b));
    eexists _, _; (split; [reflexivity|]); repeat split; exact Hid.
Qed.

Lemma mobile_nav_click_closes_menu_witness :
  exists buttons b,
    mobileNav {| isMenuOpen := true; activeSection := "home" |} = Some buttons
    /\ In b buttons
    /\ exists st' calls,
         scrollToSection scenarioDoc (onClickSection b)
           {| isMenuOpen := true; activeSection := "home" |}
         = Ok (tt, st', calls)
         /\ mobileNav st' = None
         /\ menuButtonIcon st' = IconMenu
         /\ desktopNav st'
            = desktopNav {| isMenuOpen := true; activeSection := "home" |}
         /\ In (onClickSection b) (map id navItems).
Proof.
  eexists _, (mkNavButton "skills" "skills" _ "Skills").
  assert (Hb : In (mkNavButton "skills" "skills"
                     "block w-full text-left px-3 py-2 text-sm font-medium text-muted-foreground hover:text-primary transition-colors"
                     "Skills")
                  (map (fun item =>
                          {| key := id item;
                             onClickSection := id item;
                             className :=
                               "block w-full text-left px-3 py-2 text-sm font-medium text-muted-foreground hover:text-primary transition-colors";
                             children := label item |})
                       navItems))
    by (simpl; tauto).
  split; [reflexivity|]. split; [exact Hb|].
  exact (mobile_nav_click_closes_menu
           {| isMenuOpen := true; activeSection := "home" |} scenarioDoc
           _ _ eq_refl Hb).
Defined.

(** ** The scroll subscription *)

Lemma sameListener_refl type cb :
  sameListener type cb {| eventType := type; callback := cb |} = true.
Proof.
  unfold sameListener. cbn [eventType callback].
  now rewrite String.eqb_refl, Nat.eqb_refl.
Qed.

Lemma remove_absent type cb ls :
  existsb (sameListener type cb) ls = false ->
  removeEventListener type cb ls = ls.
Proof.
  unfold removeEventListener.
  induction ls as [|l ls IH]; [reflexivity|].
  cbn [existsb filter]. intros H. apply orb_false_iff in H.
  destruct H as [Hl Hls]. rewrite Hl. cbn [negb]. now rewrite IH.
Qed.

Lemma remove_removes type cb ls :
  existsb (sameListener type cb) (removeEventListener type cb ls) = false.
Proof.
  unfold removeEventListener.
  induction ls as [|l ls IH]; [reflexivity|].
  cbn [filter]. destruct (sameListener type cb l) eqn:Hl; cbn [negb].
  - exact IH.
  - cbn [existsb]. now rewrite Hl, IH.
Qed.

(** X12. The cleanup of the effect undoes its subscription.  After the
    effect has run, the scroll listener is registered; after the cleanup it
    is not, and the listeners of [window] are what they were before the
    effect ran (with any earlier registration of the same callback removed
    as well). *)
Theorem effect_cleanup_undoes_mount handleScrollRef ls :
  existsb (sameListener "scroll" handleScrollRef)
          (effectMount handleScrollRef ls) = true
  /\ existsb (sameListener "scroll" handleScrollRef)
             (effectCleanup handleScrollRef (effectMount handleScrollRef ls))
     = false
  /\ effectCleanup handleScrollRef (effectMount handleScrollRef ls)
     = if existsb (sameListener "scroll" handleScrollRef) ls
       then effectCleanup handleScrollRef ls
       else ls.
Proof.
  unfold effectMount, effectCleanup, addEventListener.
  split; [|split].
  - destruct (existsb (sameListener "scroll" handleScrollRef) ls) eqn:He;
      [exact He|].
    rewrite existsb_app. cbn [existsb].
    now rewrite sameListener_refl, orb_true_r.
  - apply remove_removes.
  - destruct (existsb (sameListener "scroll" handleScrollRef) ls) eqn:He;
      [reflexivity|].
    unfold removeEventListener. rewrite filter_app. cbn [filter].
    rewrite sameListener_refl. cbn [negb]. rewrite app_nil_r.
    now apply remove_absent.
Qed.

(** ** The featured projects grid *)

Lemma mapIndexFrom_map {A B C} (f : A -> nat -> B) (g : B -> C) (h : A -> C)
    i l :
  (forall a n, g (f a n) = h a) ->
  map g (mapIndexFrom f i l) = map h l.
Proof.
  intros H. revert i.
  induction l as [|a rest IH]; intros i; [reflexivity|].
  cbn [mapIndexFrom map]. now rewrite H, IH.
Qed.

Lemma NoDup_map_filter {A B} (f : A -> B) (p : A -> bool) l :
  NoDup (map f l) -> NoDup (map f (filter p l)).
Proof.
  induction l as [|a rest IH]; intros H; [constructor|].
  cbn [map] in H. inversion H as [|x xs Hnotin Hrest]; subst.
  cbn [filter]. destruct (p a); [|now apply IH].
  cbn [map]. constructor; [|now apply IH].
  intros Hin. apply Hnotin. apply in_map_iff in Hin.
  destruct Hin as (y & Hy & Hin). apply filter_In in Hin.
  apply in_map_iff. exists y. split; [exact Hy | apply Hin].
Qed.

(** X14. When the projects have distinct ids, the React keys of the
    rendered cards are distinct. *)
Theorem renderProjects_keys_distinct ps :
  NoDup (map project_id ps) ->
  NoDup (map card_key (renderProjects ps)).
Proof.
  intros H. unfold renderProjects.
  rewrite (mapIndexFrom_map _ card_key project_id); [|reflexivity].
  now apply NoDup_map_filter.
Qed.

Lemma renderProjects_keys_distinct_witness :
  NoDup (map project_id projects)
  /\ NoDup (map card_key (renderProjects projects)).
Proof.
  assert (H : NoDup (map project_id projects)).
  { repeat constructor; simpl; intuition discriminate. }
  split; [exact H|].
  exact (renderProjects_keys_distinct projects H).
Defined.

(** ** Landing on a section *)

(** X15. In a stacked layout, a pass run with the viewport aligned to the
    top of a section (the scroll offset equals the section's [offsetTop])
    makes that section active, provided the section is taller than the
    100 px bias. *)
Theorem aligned_section_is_active sections doc s e st :
  stacked doc sections = true ->
  In s sections ->
  getElementById doc s = Some e ->
  100 < offsetHeight e ->
  trackSections sections doc (offsetTop e) st
  = Ok (tt, {| isMenuOpen := isMenuOpen st; activeSection := s |}, []).
Proof.
  intros Hst Hin He Hh. rewrite trackSections_settle.
  assert (Hm : matches doc (offsetTop e + 100) s).
  { exists e. split; [exact He|]. unfold inRange. lia. }
  destruct (firstMatch doc (offsetTop e + 100) sections) as [s'|] eqn:Hf.
  - assert (s' = s) as ->; [|reflexivity].
    apply (stacked_disjoint doc sections (offsetTop e + 100)); auto.
    + now apply firstMatch_In in Hf.
    + apply firstMatch_Some in Hf. now destruct Hf as (_ & _ & _ & Hm' & _).
  - apply firstMatch_None in Hf. rewrite Forall_forall in Hf.
    exfalso. exact (Hf s Hin Hm).
Qed.

Lemma aligned_section_is_active_witness :
  stacked scenarioDoc (map id navItems) = true
  /\ In "skills" (map id navItems)
  /\ getElementById scenarioDoc "skills" = Some (mkElement "skills" 1600 800)
  /\ 100 < offsetHeight (mkElement "skills" 1600 800)
  /\ trackSections (map id navItems) scenarioDoc
       (offsetTop (mkElement "skills" 1600 800)) initialState
     = Ok (tt, {| isMenuOpen := false; activeSection := "skills" |}, []).
Proof.
  assert (Hin : In "skills" (map id navItems)) by (simpl; tauto).
  assert (Hh : 100 < offsetHeight (mkElement "skills" 1600 800))
    by (simpl; lia).
  split; [reflexivity|]. split; [exact Hin|].
  split; [reflexivity|]. split; [exact Hh|].
  exact (aligned_section_is_active (map id navItems) scenarioDoc "skills"
           (mkElement "skills" 1600 800) initialState eq_refl Hin eq_refl Hh).
Defined.
